(** * Terminal session proxy of the cluster manager (cluster-manager/terminal.go)

    Shallow embedding of [handleResize] (the in-band resize decoder) and of
    [runTerminalSession] (the pseudo-terminal / websocket proxy with its two
    copy goroutines and its cleanup sequence). *)

From Stdlib Require Import List String Ascii ZArith Lia Bool.
Import ListNotations.
Open Scope Z_scope.

(** ** Bytes and Go runtime faults *)

(** A Go [string]/[[]byte] is a list of 8-bit characters. *)
Definition bytes := list ascii.

(** The double quote character, byte 34. *)
Definition dq : ascii := Ascii.ascii_of_nat 34.

(** Writes a byte string with [dq] in place of each single quote, so that
    JSON-like payloads read naturally: [jq "{'cols':80}"]. *)
Definition jq (s : string) : bytes :=
  map (fun c => if Ascii.eqb c "'"%char then dq else c) (list_ascii_of_string s).

(** [uint16] arithmetic wraps modulo 2^16. *)
Definition wrap16 (z : Z) : Z := z mod 65536.

(** [pty.Winsize] restricted to the two fields the code sets. *)
Record winsize := { ws_rows : Z; ws_cols : Z }.

Definition default_winsize : winsize := {| ws_rows := 24; ws_cols := 80 |}.

(** ** handleResize *)

Module Resize.

(** ["\"cols\""] and ["\"rows\""], the literals compared with [str[i:i+6]]. *)
Definition cols_key : bytes := jq "'cols'".
Definition rows_key : bytes := jq "'rows'".

Fixpoint bytes_eqb (a b : bytes) : bool :=
  match a, b with
  | [], [] => true
  | x :: a', y :: b' => Ascii.eqb x y && bytes_eqb a' b'
  | _, _ => false
  end.

(** [str[i:i+6] == key]; only evaluated for [i < len(str)-5], so the
    slice is always in range. *)
Definition key_at (key str : bytes) (i : nat) : bool :=
  bytes_eqb (firstn 6 (skipn i str)) key.

(** The separator loop
      [for j < len(str) && str[j] == ' ' || str[j] == ':' { j++ }]
    on the suffix [skipn j str].  Go's [&&] binds tighter than [||], so when
    [j >= len(str)] the right operand [str[j] == ':'] is still evaluated and
    the index is out of range: a runtime panic, [None] here.  On success the
    result is the suffix starting at the first byte that is neither. *)
Fixpoint skip_sep (t : bytes) : option bytes :=
  match t with
  | [] => None
  | c :: t' =>
      if Ascii.eqb c " "%char then skip_sep t'
      else if Ascii.eqb c ":"%char then skip_sep t'
      else Some t
  end.

Definition is_digit (c : ascii) : bool :=
  (48 <=? Z.of_nat (nat_of_ascii c)) && (Z.of_nat (nat_of_ascii c) <=? 57).

(** The digit loop [num = num*10 + uint16(str[j]-'0')] on [uint16]. *)
Fixpoint scan_digits (t : bytes) (num : Z) : Z :=
  match t with
  | c :: t' =>
      if is_digit c
      then scan_digits t' (wrap16 (wrap16 (num * 10) + (Z.of_nat (nat_of_ascii c) - 48)))
      else num
  | [] => num
  end.

(** The number read after a key matched at [i]: [j := i + 7], the separator
    loop, then the digit loop from [num := 0].  [None] is a panic. *)
Definition value_at (str : bytes) (i : nat) : option Z :=
  match skip_sep (skipn (i + 7) str) with
  | None => None
  | Some t => Some (scan_digits t 0)
  end.

(** One [if str[i:i+6] == key { ... if num > 0 { cur = num } }] block. *)
Definition field_at (key str : bytes) (i : nat) (cur : Z) : option Z :=
  if key_at key str i then
    match value_at str i with
    | None => None
    | Some num => Some (if 0 <? num then num else cur)
    end
  else Some cur.

(** [for i := start; ... ; i++] for [n] iterations: the [cols] block, then
    the [rows] block. *)
Fixpoint scan_loop (str : bytes) (i n : nat) (cols rows : Z) : option (Z * Z) :=
  match n with
  | O => Some (cols, rows)
  | S n' =>
      match field_at cols_key str i cols with
      | None => None
      | Some cols' =>
          match field_at rows_key str i rows with
          | None => None
          | Some rows' => scan_loop str (S i) n' cols' rows'
          end
      end
  end.

(** [handleResize]: [cols, rows := 80, 24]; when [len(str) > 10] the loop
    [for i := 0; i < len(str)-5; i++]; then [pty.Setsize] with the result.
    The returned [winsize] is what is passed to [pty.Setsize]; [None] is a
    runtime panic. *)
Definition handleResize (data : bytes) : option winsize :=
  let str := data in
  let r :=
    if Nat.ltb 10 (List.length str)
    then scan_loop str 0 (List.length str - 5) 80 24
    else Some (80, 24) in
  match r with
  | None => None
  | Some (cols, rows) => Some {| ws_rows := rows; ws_cols := cols |}
  end.

End Resize.

(** ** runTerminalSession *)

Module Session.

(** What [ptmx.Read] and [ws.Read] return: [n > 0] bytes, [n = 0], [io.EOF]
    or another error.  [RData []] is a read of zero bytes. *)
Inductive read_result := RData (b : bytes) | REof | RErr.

(** State of one copy goroutine. *)
Inductive loop_state := Running | Exited.

(** Where the main goroutine of [runTerminalSession] is: blocked in
    [cmd.Wait()], before [close(done)], before [ws.Close()], in
    [wg.Wait()], running the deferred [ptmx.Close()], or returned (also
    after a panic). *)
Inductive main_pc := PcWait | PcCloseDone | PcCloseWs | PcWgWait | PcClosePty | PcReturned.

(** Observable effects, newest first in the trace. *)
Inductive event :=
| EvLog (msg : string)
| EvPtyRead
| EvPtyWrite (b : bytes)
| EvSetsize (w : winsize)
| EvWsWrite (b : bytes)
| EvWsClose
| EvCloseDone
| EvInterrupt
| EvWgDone
| EvPtyClose
| EvPanic (msg : string).

Record session := {
  done : bool;             (** channel [done] closed *)
  ws_closed : bool;        (** [ws.Close()] called *)
  pty_closed : bool;       (** [ptmx.Close()] called *)
  geometry : winsize;      (** last size given to [pty.Setsize] *)
  out_loop : loop_state;   (** pty -> websocket goroutine *)
  in_loop : loop_state;    (** websocket -> pty goroutine *)
  pc : main_pc;
  panicked : bool;         (** an unrecovered panic stopped the program *)
  ws_reads : list bytes;   (** chunks returned by [ws.Read], newest first *)
  trace : list event
}.

Definition emit (s : session) (e : event) : session :=
  {| done := done s; ws_closed := ws_closed s; pty_closed := pty_closed s;
     geometry := geometry s; out_loop := out_loop s; in_loop := in_loop s;
     pc := pc s; panicked := panicked s; ws_reads := ws_reads s;
     trace := e :: trace s |}.

Definition set_done (s : session) : session :=
  {| done := true; ws_closed := ws_closed s; pty_closed := pty_closed s;
     geometry := geometry s; out_loop := out_loop s; in_loop := in_loop s;
     pc := pc s; panicked := panicked s; ws_reads := ws_reads s;
     trace := trace s |}.

Definition set_ws_closed (s : session) : session :=
  {| done := done s; ws_closed := true; pty_closed := pty_closed s;
     geometry := geometry s; out_loop := out_loop s; in_loop := in_loop s;
     pc := pc s; panicked := panicked s; ws_reads := ws_reads s;
     trace := trace s |}.

Definition set_pty_closed (s : session) : session :=
  {| done := done s; ws_closed := ws_closed s; pty_closed := true;
     geometry := geometry s; out_loop := out_loop s; in_loop := in_loop s;
     pc := pc s; panicked := panicked s; ws_reads := ws_reads s;
     trace := trace s |}.

Definition set_geometry (s : session) (g : winsize) : session :=
  {| done := done s; ws_closed := ws_closed s; pty_closed := pty_closed s;
     geometry := g; out_loop := out_loop s; in_loop := in_loop s;
     pc := pc s; panicked := panicked s; ws_reads := ws_reads s;
     trace := trace s |}.

Definition exit_out (s : session) : session :=
  {| done := done s; ws_closed := ws_closed s; pty_closed := pty_closed s;
     geometry := geometry s; out_loop := Exited; in_loop := in_loop s;
     pc := pc s; panicked := panicked s; ws_reads := ws_reads s;
     trace := trace s |}.

Definition exit_in (s : session) : session :=
  {| done := done s; ws_closed := ws_closed s; pty_closed := pty_closed s;
     geometry := geometry s; out_loop := out_loop s; in_loop := Exited;
     pc := pc s; panicked := panicked s; ws_reads := ws_reads s;
     trace := trace s |}.

Definition set_pc (s : session) (p : main_pc) : session :=
  {| done := done s; ws_closed := ws_closed s; pty_closed := pty_closed s;
     geometry := geometry s; out_loop := out_loop s; in_loop := in_loop s;
     pc := p; panicked := panicked s; ws_reads := ws_reads s;
     trace := trace s |}.

(** An unrecovered panic in any goroutine terminates the program. *)
Definition go_panic (s : session) (msg : string) : session :=
  {| done := done s; ws_closed := ws_closed s; pty_closed := pty_closed s;
     geometry := geometry s; out_loop := out_loop s; in_loop := in_loop s;
     pc := pc s; panicked := true; ws_reads := ws_reads s;
     trace := EvPanic msg :: trace s |}.

Definition add_read (s : session) (b : bytes) : session :=
  {| done := done s; ws_closed := ws_closed s; pty_closed := pty_closed s;
     geometry := geometry s; out_loop := out_loop s; in_loop := in_loop s;
     pc := pc s; panicked := panicked s; ws_reads := b :: ws_reads s;
     trace := trace s |}.

(** A panic in the main goroutine, which is the goroutine net/http runs
    the handler on: while it unwinds, the deferred [ptmx.Close()] runs, and
    net/http recovers the panic, so the program goes on and the other
    goroutines keep running.  ([websocket.Server] then closes the network
    connection in a deferred call of its own, outside this repository.) *)
Definition handler_panic (s : session) (msg : string) : session :=
  set_pc (emit (set_pty_closed (emit s (EvPanic msg))) EvPtyClose) PcReturned.

(** [close(done)]: Go panics when the channel is already closed. *)
Definition close_done (s : session) : session :=
  if done s then go_panic s "close of closed channel"
  else emit (set_done s) EvCloseDone.

(** One iteration of the pty -> websocket goroutine:
    [select { case <-done: return; default: n, err := ptmx.Read(buf) ... }].
    [write_ok] is the outcome of [ws.Write]; a closed websocket fails it. *)
Definition out_iter (s : session) (r : read_result) (write_ok : bool) : session :=
  if done s then exit_out s
  else
    let s := emit s EvPtyRead in
    match r with
    | REof => exit_out s
    | RErr => exit_out (emit s (EvLog "pty read error"))
    | RData [] => s
    | RData b =>
        let s := emit s (EvWsWrite b) in
        if write_ok && negb (ws_closed s) then s
        else exit_out (emit s (EvLog "ws write error"))
    end.

(** One iteration of the websocket -> pty goroutine.  A read on a closed
    websocket fails.  On a read error: [close(done)], then
    [cmd.Process.Signal(os.Interrupt)], then return.  A chunk whose first
    byte is ['{'] goes to [handleResize]; any other non-empty chunk to
    [ptmx.Write], whose outcome is [write_ok]. *)
Definition in_iter (s : session) (r : read_result) (write_ok : bool) : session :=
  let r := if ws_closed s then RErr else r in
  match r with
  | REof | RErr =>
      let s := match r with RErr => emit s (EvLog "ws read error") | _ => s end in
      let s := close_done s in
      if panicked s then s
      else exit_in (emit s EvInterrupt)
  | RData [] => s
  | RData ((c :: _) as b) =>
      let s := add_read s b in
      if Ascii.eqb c "{"%char then
        match Resize.handleResize b with
        | None => go_panic s "index out of range"
        | Some g => emit (set_geometry s g) (EvSetsize g)
        end
      else
        let s := emit s (EvPtyWrite b) in
        if write_ok then s else exit_in (emit s (EvLog "pty write error"))
  end.

(** The main goroutine after the two goroutines are started: [cmd.Wait()]
    returns when the process exits, then [close(done)], [ws.Close()],
    [wg.Wait()] (blocked until both goroutines have returned) and the
    deferred [ptmx.Close()].  When [done] is already closed, [close(done)]
    panics in this goroutine: see [handler_panic].  [None]: no step is
    possible. *)
Definition main_iter (s : session) : option session :=
  match pc s with
  | PcWait => Some (set_pc s PcCloseDone)
  | PcCloseDone =>
      if done s then Some (handler_panic s "close of closed channel")
      else Some (set_pc (close_done s) PcCloseWs)
  | PcCloseWs => Some (set_pc (emit (set_ws_closed s) EvWsClose) PcWgWait)
  | PcWgWait =>
      match out_loop s, in_loop s with
      | Exited, Exited => Some (set_pc (emit s EvWgDone) PcClosePty)
      | _, _ => None
      end
  | PcClosePty => Some (set_pc (emit (set_pty_closed s) EvPtyClose) PcReturned)
  | PcReturned => None
  end.

(** Scheduler choices: which goroutine runs next, with what its I/O returns. *)
Inductive label :=
| LOut (r : read_result) (write_ok : bool)
| LIn (r : read_result) (write_ok : bool)
| LMain.

Definition exec (s : session) (l : label) : option session :=
  if panicked s then None
  else
    match l with
    | LOut r ok => match out_loop s with Running => Some (out_iter s r ok) | Exited => None end
    | LIn r ok => match in_loop s with Running => Some (in_iter s r ok) | Exited => None end
    | LMain => main_iter s
    end.

Fixpoint exec_all (s : session) (ls : list label) : option session :=
  match ls with
  | [] => Some s
  | l :: ls' => match exec s l with None => None | Some s' => exec_all s' ls' end
  end.

(** Outcome of [pty.Start(cmd)]. *)
Inductive pty_start := PtyStartErr (err : string) | PtyStartOk.

Definition crlf : string :=
  String (Ascii.ascii_of_nat 13) (String (Ascii.ascii_of_nat 10) EmptyString).

(** The session right after [pty.Setsize(ptmx, 24x80)] and the start of
    both goroutines. *)
Definition init_session : session :=
  {| done := false; ws_closed := false; pty_closed := false;
     geometry := default_winsize; out_loop := Running; in_loop := Running;
     pc := PcWait; panicked := false; ws_reads := [];
     trace := [EvSetsize default_winsize] |}.

(** The start of [runTerminalSession]: on a [pty.Start] error, the log line,
    the diagnostic written to the websocket, [ws.Close()] and return (the
    effects newest first, no session); otherwise the running session. *)
Definition runTerminalSession_start (st : pty_start) : list event * option session :=
  match st with
  | PtyStartErr e =>
      ([EvWsClose;
        EvWsWrite (list_ascii_of_string ("Failed to start terminal: " ++ e ++ crlf));
        EvLog ("failed to start pty: " ++ e)], None)
  | PtyStartOk => (trace init_session, Some init_session)
  end.

(** States reachable from a started session under any schedule. *)
Inductive reachable : session -> Prop :=
| reach_init : reachable init_session
| reach_step s l s' : reachable s -> exec s l = Some s' -> reachable s'.

End Session.

(** ** Properties of the decoder *)

Module ResizeFacts.
Import Resize.

(** Decimal value of the leading digit run, without wrap-around. *)
Fixpoint dec_value (t : bytes) (acc : Z) : Z :=
  match t with
  | c :: t' =>
      if is_digit c then dec_value t' (acc * 10 + (Z.of_nat (nat_of_ascii c) - 48)) else acc
  | [] => acc
  end.

Lemma wrap16_step (a d : Z) :
  wrap16 (wrap16 (a mod 65536 * 10) + d) = (a * 10 + d) mod 65536.
Proof.
  unfold wrap16.
  rewrite Z.add_mod_idemp_l by lia.
  rewrite <- (Z.add_mod_idemp_l (a * 10)) by lia.
  rewrite <- (Z.mul_mod_idemp_l a 10) by lia.
  rewrite Z.add_mod_idemp_l by lia.
  reflexivity.
Qed.

Lemma scan_digits_mod (t : bytes) (a : Z) :
  scan_digits t (a mod 65536) = dec_value t a mod 65536.
Proof.
  revert a; induction t as [|c t IH]; intro a; simpl.
  - reflexivity.
  - destruct (is_digit c).
    + rewrite wrap16_step. apply IH.
    + reflexivity.
Qed.

(** The [cols] block leaves its accumulator unchanged at every position
    where the key, if it matches, is followed by a value read as 0. *)
Lemma field_at_zero (key str : bytes) (i : nat) (cur v : Z) :
  (key_at key str i = true -> value_at str i = Some 0) ->
  field_at key str i cur = Some v -> v = cur.
Proof.
  unfold field_at; intros Hz Hf.
  destruct (key_at key str i).
  - rewrite (Hz eq_refl) in Hf. simpl in Hf. congruence.
  - congruence.
Qed.

Lemma scan_loop_cols_zero (str : bytes) :
  (forall k, key_at cols_key str k = true -> value_at str k = Some 0) ->
  forall n i cols rows c r,
  scan_loop str i n cols rows = Some (c, r) -> c = cols.
Proof.
  intros Hz n; induction n as [|n IH]; intros i cols rows c r H; simpl in H.
  - congruence.
  - destruct (field_at cols_key str i cols) as [cols'|] eqn:Ec; [|discriminate].
    destruct (field_at rows_key str i rows) as [rows'|] eqn:Er; [|discriminate].
    apply IH in H. subst c. exact (field_at_zero _ _ _ _ _ (Hz i) Ec).
Qed.

Lemma scan_loop_rows_zero (str : bytes) :
  (forall k, key_at rows_key str k = true -> value_at str k = Some 0) ->
  forall n i cols rows c r,
  scan_loop str i n cols rows = Some (c, r) -> r = rows.
Proof.
  intros Hz n; induction n as [|n IH]; intros i cols rows c r H; simpl in H.
  - congruence.
  - destruct (field_at cols_key str i cols) as [cols'|] eqn:Ec; [|discriminate].
    destruct (field_at rows_key str i rows) as [rows'|] eqn:Er; [|discriminate].
    apply IH in H. subst r. exact (field_at_zero _ _ _ _ _ (Hz i) Er).
Qed.

Lemma handleResize_cols_default (c : bytes) (g : winsize) :
  (forall i, key_at cols_key c i = true -> value_at c i = Some 0) ->
  handleResize c = Some g -> ws_cols g = 80.
Proof.
  intros Hz; unfold handleResize.
  destruct (Nat.ltb 10 (List.length c)).
  - destruct (scan_loop c 0 (List.length c - 5) 80 24) as [[cc rr]|] eqn:E; [|discriminate].
    intro H; injection H as <-. simpl. exact (scan_loop_cols_zero c Hz _ _ _ _ _ _ E).
  - intro H; injection H as <-. reflexivity.
Qed.

Lemma handleResize_rows_default (c : bytes) (g : winsize) :
  (forall i, key_at rows_key c i = true -> value_at c i = Some 0) ->
  handleResize c = Some g -> ws_rows g = 24.
Proof.
  intros Hz; unfold handleResize.
  destruct (Nat.ltb 10 (List.length c)).
  - destruct (scan_loop c 0 (List.length c - 5) 80 24) as [[cc rr]|] eqn:E; [|discriminate].
    intro H; injection H as <-. simpl. exact (scan_loop_rows_zero c Hz _ _ _ _ _ _ E).
  - intro H; injection H as <-. reflexivity.
Qed.

(** Without any key occurrence the loop cannot panic and changes nothing. *)
Lemma scan_loop_no_keys (str : bytes) :
  (forall k, key_at cols_key str k = false /\ key_at rows_key str k = false) ->
  forall n i cols rows, scan_loop str i n cols rows = Some (cols, rows).
Proof.
  intros Hk n; induction n as [|n IH]; intros i cols rows; simpl.
  - reflexivity.
  - unfold field_at. destruct (Hk i) as [-> ->]. apply IH.
Qed.

Lemma handleResize_no_keys (c : bytes) :
  (forall k, key_at cols_key c k = false /\ key_at rows_key c k = false) ->
  handleResize c = Some default_winsize.
Proof.
  intros Hk; unfold handleResize.
  destruct (Nat.ltb 10 (List.length c)); [rewrite (scan_loop_no_keys c Hk)|]; reflexivity.
Qed.

End ResizeFacts.

(** ** Invariants of the session *)

Module SessionFacts.
Import Session.

(** Chunks handed to [ptmx.Write], newest first. *)
Fixpoint pty_writes (tr : list event) : list bytes :=
  match tr with
  | [] => []
  | EvPtyWrite b :: tr' => b :: pty_writes tr'
  | _ :: tr' => pty_writes tr'
  end.

(** A chunk the websocket -> pty goroutine is to forward: non-empty and
    not starting with ['{']. *)
Definition forwarded (b : bytes) : bool :=
  match b with
  | c :: _ => negb (Ascii.eqb c "{"%char)
  | [] => false
  end.

Ltac split_matches :=
  repeat match goal with
  | H : context [match ?x with _ => _ end] |- _ => destruct x eqn:?
  | |- context [match ?x with _ => _ end] => destruct x eqn:?
  | H : context [if ?x then _ else _] |- _ => destruct x eqn:?
  | |- context [if ?x then _ else _] => destruct x eqn:?
  end.

Ltac exec_cases H :=
  destruct H as [? ? ? ? ? ? ? ? ? ?]; simpl in *;
  unfold exec, out_iter, in_iter, main_iter, close_done, go_panic, emit,
    set_done, set_ws_closed, set_pty_closed, set_geometry, exit_out, exit_in,
    set_pc, add_read, handler_panic in *; simpl in *; split_matches; simpl in *;
  repeat match goal with
  | H : Some _ = Some _ |- _ => injection H as <-
  end; simpl in *; try discriminate.

Lemma exec_pty_writes (s s' : session) (l : label) :
  exec s l = Some s' ->
  pty_writes (trace s) = filter forwarded (ws_reads s) ->
  pty_writes (trace s') = filter forwarded (ws_reads s').
Proof.
  revert s'. destruct l; intros s' Hx Hinv; exec_cases s.
  all: repeat match goal with
              | H : Ascii.eqb _ _ = _ |- _ => rewrite H; clear H
              end; simpl; congruence.
Qed.

Lemma exec_running (s s' : session) (l : label) :
  exec s l = Some s' ->
  match l with
  | LOut _ _ => out_loop s = Running
  | LIn _ _ => in_loop s = Running
  | LMain => True
  end.
Proof.
  unfold exec; destruct (panicked s); [discriminate|].
  destruct l; [destruct (out_loop s) | destruct (in_loop s) |]; intros;
    try exact I; congruence.
Qed.

Lemma exec_all_reachable (ls : list label) :
  forall s s', reachable s -> exec_all s ls = Some s' -> reachable s'.
Proof.
  induction ls as [|l ls IH]; intros s s' Hs Hx; simpl in Hx.
  - congruence.
  - destruct (exec s l) as [s1|] eqn:E; [|discriminate].
    exact (IH s1 s' (reach_step s l s1 Hs E) Hx).
Qed.

Lemma reachable_pty_writes (s : session) :
  reachable s -> pty_writes (trace s) = filter forwarded (ws_reads s).
Proof.
  induction 1 as [|s l s' _ IH Hx].
  - reflexivity.
  - exact (exec_pty_writes s s' l Hx IH).
Qed.

End SessionFacts.

(** ** More invariants of the session *)

Module SessionBounds.
Import Resize ResizeFacts Session SessionFacts.

Lemma scan_digits_range (t : bytes) (a : Z) :
  0 <= a < 65536 -> 0 <= scan_digits t a < 65536.
Proof.
  revert a; induction t as [|c t IH]; intros a Ha; simpl; [exact Ha|].
  destruct (is_digit c); [apply IH; unfold wrap16; apply Z.mod_pos_bound; lia | exact Ha].
Qed.

Lemma field_at_range (key str : bytes) (i : nat) (cur v : Z) :
  0 < cur < 65536 -> field_at key str i cur = Some v -> 0 < v < 65536.
Proof.
  unfold field_at, value_at; intros Hc Hf.
  destruct (key_at key str i); [|congruence].
  destruct (skip_sep (skipn (i + 7) str)) as [t|]; [|discriminate].
  injection Hf as <-.
  destruct (0 <? scan_digits t 0) eqn:E; [|exact Hc].
  apply Z.ltb_lt in E. pose proof (scan_digits_range t 0 ltac:(lia)). lia.
Qed.

Lemma scan_loop_range (str : bytes) (n : nat) :
  forall i cols rows c r, 0 < cols < 65536 -> 0 < rows < 65536 ->
  scan_loop str i n cols rows = Some (c, r) -> 0 < c < 65536 /\ 0 < r < 65536.
Proof.
  induction n as [|n IH]; intros i cols rows c r Hc Hr H; simpl in H.
  - injection H as <- <-. auto.
  - destruct (field_at cols_key str i cols) as [cols'|] eqn:Ec; [|discriminate].
    destruct (field_at rows_key str i rows) as [rows'|] eqn:Er; [|discriminate].
    exact (IH _ _ _ _ _ (field_at_range _ _ _ _ _ Hc Ec) (field_at_range _ _ _ _ _ Hr Er) H).
Qed.

(** Every size passed to [pty.Setsize] by [handleResize] is in [1, 65535]. *)
Definition size_ok (g : winsize) : Prop :=
  0 < ws_rows g < 65536 /\ 0 < ws_cols g < 65536.

Lemma handleResize_range (c : bytes) (g : winsize) :
  handleResize c = Some g -> size_ok g.
Proof.
  unfold handleResize, size_ok.
  destruct (Nat.ltb 10 (List.length c)).
  - destruct (scan_loop c 0 (List.length c - 5) 80 24) as [[cc rr]|] eqn:E; [|discriminate].
    intro H; injection H as <-. simpl.
    destruct (scan_loop_range c (List.length c - 5) 0 80 24 cc rr ltac:(lia) ltac:(lia) E).
    auto.
  - intro H; injection H as <-. simpl. lia.
Qed.

Lemma exec_geometry (s s' : session) (l : label) :
  exec s l = Some s' -> size_ok (geometry s) -> size_ok (geometry s').
Proof.
  revert s'; intros s' Hx Hg; exec_cases s; try exact Hg.
  all: eapply handleResize_range; eassumption.
Qed.

Lemma reachable_geometry (s : session) : reachable s -> size_ok (geometry s).
Proof.
  induction 1 as [|s l s' _ IH Hx].
  - unfold size_ok; simpl; lia.
  - exact (exec_geometry s s' l Hx IH).
Qed.

(** Number of [cmd.Process.Signal(os.Interrupt)] calls in a trace. *)
Fixpoint interrupts (tr : list event) : nat :=
  match tr with
  | [] => O
  | EvInterrupt :: tr' => S (interrupts tr')
  | _ :: tr' => interrupts tr'
  end.

Definition interrupt_inv (s : session) : Prop :=
  (in_loop s = Running -> interrupts (trace s) = O) /\
  (interrupts (trace s) <= 1)%nat /\
  (interrupts (trace s) <> O -> done s = true).

Lemma exec_interrupt_inv (s s' : session) (l : label) :
  exec s l = Some s' -> interrupt_inv s -> interrupt_inv s'.
Proof.
  revert s'; intros s' Hx Hinv; unfold interrupt_inv in *.
  destruct l; exec_cases s.
  all: destruct Hinv as (I1 & I2 & I3).
  all: repeat split; intros; simpl in *; try discriminate; auto; try lia.
  all: try (rewrite I1 by reflexivity; lia).
  all: try (rewrite I1 by assumption; lia).
  all: try (rewrite I1 in *; auto; congruence).
  all: try (apply I3; assumption).
  all: congruence.
Qed.

Lemma reachable_interrupt_inv (s : session) : reachable s -> interrupt_inv s.
Proof.
  induction 1 as [|s l s' _ IH Hx].
  - unfold interrupt_inv; simpl; repeat split; intros; try lia; congruence.
  - exact (exec_interrupt_inv s s' l Hx IH).
Qed.

End SessionBounds.

(** ** cluster-manager/main.go: the caller of [runTerminalSession] *)

Module Main.

(** Go's [rune(x)] on an [int]: truncation to [int32]. *)
Definition to_int32 (z : Z) : Z := (z + 2147483648) mod 4294967296 - 2147483648.

(** Go's [string(r)] for a rune: its UTF-8 encoding, or U+FFFD for a value
    that is not a Unicode scalar value. *)
Definition utf8_encode (r : Z) : list Z :=
  if (r <? 0) || (1114111 <? r) || ((55296 <=? r) && (r <=? 57343))
  then [239; 191; 189]
  else if r <? 128 then [r]
  else if r <? 2048 then
    [Z.lor 192 (Z.shiftr r 6); Z.lor 128 (Z.land r 63)]
  else if r <? 65536 then
    [Z.lor 224 (Z.shiftr r 12); Z.lor 128 (Z.land (Z.shiftr r 6) 63);
     Z.lor 128 (Z.land r 63)]
  else
    [Z.lor 240 (Z.shiftr r 18); Z.lor 128 (Z.land (Z.shiftr r 12) 63);
     Z.lor 128 (Z.land (Z.shiftr r 6) 63); Z.lor 128 (Z.land r 63)].

Definition bytes_of (l : list Z) : bytes := map (fun b => ascii_of_nat (Z.to_nat b)) l.

Definition string_of_rune (x : Z) : bytes := bytes_of (utf8_encode (to_int32 x)).

(** [strings.TrimPrefix(s, prefix)]. *)
Definition TrimPrefix (s prefix : bytes) : bytes :=
  if Resize.bytes_eqb (firstn (List.length prefix) s) prefix
  then skipn (List.length prefix) s else s.

(** [intToStr]: Go's [/] and [%] on [int] truncate toward zero. *)
Definition intToStr (n : Z) : bytes :=
  TrimPrefix
    (TrimPrefix (string_of_rune (48 + Z.quot n 10) ++ string_of_rune (48 + Z.rem n 10))
       (list_ascii_of_string "0"))
    [].

(** An HTTP response: status code and body. *)
Record response := { status : Z; body : string }.

Definition newline : string := String (Ascii.ascii_of_nat 10) EmptyString.

(** [http.Error(w, msg, code)] writes [msg] and a newline. *)
Definition http_error (msg : string) (code : Z) : response :=
  {| status := code; body := msg ++ newline |}.

(** The one request header the code reads; [Header.Get] gives [""] when it
    is absent. *)
Record request := { hdr_secret : string }.

(** [authMiddleware(next)] for the global [sharedSecret]. *)
Definition authMiddleware (sharedSecret : string) (next : request -> response)
  : request -> response :=
  fun r =>
    if negb (String.eqb sharedSecret "") then
      let provided := hdr_secret r in
      if negb (String.eqb provided sharedSecret)
      then http_error "unauthorized" 401
      else next r
    else next r.

(** What [handleTerminal] does with the connection: close it, or run
    [runTerminalSession] on [exec.Command(args...)] with [cmd.Env = env]. *)
Inductive terminal_action :=
| TermClosed
| TermRun (args : list string) (env : list string).

(** [handleTerminal] for the globals [sharedSecret] and [hostRoot], the
    process environment [environ], the value of [$SHELL] ([""] when unset)
    and the secret header of the websocket handshake request. *)
Definition handleTerminal (sharedSecret hostRoot : string) (environ : list string)
    (shellEnv : string) (r : request) : terminal_action :=
  if negb (String.eqb sharedSecret "") && negb (String.eqb (hdr_secret r) sharedSecret)
  then TermClosed
  else
    let shell := if String.eqb shellEnv "" then "/bin/bash"%string else shellEnv in
    TermRun ["chroot"; hostRoot; shell; "-l"]%string
            (environ ++ ["TERM=xterm-256color"; "HOME=/root"; "USER=root"]%string).

End Main.

Module MainFacts.
Import Resize ResizeFacts Main.

(** The checks [intToStr] passes for [0 <= n < 100]: its bytes are
    decimal digits that read back as [n], one or two of them, with no
    leading zero unless [n = 0]. *)
Definition renders_decimal (n : Z) : bool :=
  let t := intToStr n in
  Z.eqb (dec_value t 0) n && forallb is_digit t &&
  Nat.leb 1 (List.length t) && Nat.leb (List.length t) 2 &&
  (Z.eqb n 0 || match t with c :: _ => negb (Ascii.eqb c "0"%char) | [] => false end).

(** For [100 <= n < 800] the result is the two single bytes ['0' + n/10]
    and ['0' + n%10], the first of which is not a digit. *)
Definition renders_non_digit (n : Z) : bool :=
  match intToStr n with
  | [c; d] => Ascii.eqb c (ascii_of_nat (Z.to_nat (48 + Z.quot n 10))) &&
              negb (is_digit c) && Ascii.eqb d (ascii_of_nat (Z.to_nat (48 + Z.rem n 10)))
  | _ => false
  end.

Lemma forall_range (f : Z -> bool) (lo len : nat) :
  forallb f (map Z.of_nat (seq lo len)) = true ->
  forall n, Z.of_nat lo <= n < Z.of_nat lo + Z.of_nat len -> f n = true.
Proof.
  intros H n Hn.
  rewrite forallb_forall in H. apply H.
  apply in_map_iff. exists (Z.to_nat n). split; [lia|].
  apply in_seq. lia.
Qed.

Lemma renders_decimal_range (n : Z) : 0 <= n < 100 -> renders_decimal n = true.
Proof.
  apply (forall_range renders_decimal 0 100); vm_compute; reflexivity.
Qed.

Lemma renders_non_digit_range (n : Z) : 100 <= n < 800 -> renders_non_digit n = true.
Proof.
  apply (forall_range renders_non_digit 100 700); vm_compute; reflexivity.
Qed.

End MainFacts.

(** ** cluster-manager/cron.go: the cron job store *)

Module Cron.

Record CronSchedule := {
  Second : string; Minute : string; Hour : string;
  Day : string; Month : string; Weekday : string
}.

(** [LastRun] is a [*time.Time]: [None] for [nil]; times are opaque [Z]. *)
Record CronJob := {
  ID : string; Name : string; Schedule : CronSchedule; Command : string;
  Enabled : bool; LastRun : option Z; LastStatus : string; CreatedAt : Z
}.

Definition with_schedule (j : CronJob) (sc : CronSchedule) : CronJob :=
  {| ID := ID j; Name := Name j; Schedule := sc; Command := Command j;
     Enabled := Enabled j; LastRun := LastRun j; LastStatus := LastStatus j;
     CreatedAt := CreatedAt j |}.

(** [validateSchedule]: fills empty fields, always returns [nil]. *)
Definition validateSchedule (s : CronSchedule) : CronSchedule * option string :=
  ({| Second := if String.eqb (Second s) "" then "0" else Second s;
      Minute := if String.eqb (Minute s) "" then "*" else Minute s;
      Hour := if String.eqb (Hour s) "" then "*" else Hour s;
      Day := if String.eqb (Day s) "" then "*" else Day s;
      Month := if String.eqb (Month s) "" then "*" else Month s;
      Weekday := if String.eqb (Weekday s) "" then "*" else Weekday s |}, None).

(** The Go map [map[string]*CronJob] as an association list with one entry
    per key; its order stands for one iteration order of the map. *)
Definition jobmap := list (string * CronJob).

Fixpoint map_get (m : jobmap) (k : string) : option CronJob :=
  match m with
  | [] => None
  | (k', v) :: m' => if String.eqb k' k then Some v else map_get m' k
  end.

(** [m[k] = v]: replaces the entry of [k], or adds one. *)
Fixpoint map_set (m : jobmap) (k : string) (v : CronJob) : jobmap :=
  match m with
  | [] => [(k, v)]
  | (k', v') :: m' => if String.eqb k' k then (k, v) :: m' else (k', v') :: map_set m' k v
  end.

(** [delete(m, k)]. *)
Definition map_delete (m : jobmap) (k : string) : jobmap :=
  filter (fun kv => negb (String.eqb (fst kv) k)) m.

(** [sync.RWMutex]. *)
Inductive rwmutex := Unlocked | WLocked | RLocked (readers : nat).

Record cronStore := { mu : rwmutex; jobs : jobmap }.

(** Result of a store method called by one goroutine: it returns, or it
    blocks for ever on [mu] (no other goroutine can release it). *)
Inductive outcome (A : Type) :=
| Ret (st : cronStore) (a : A)
| Blocked (st : cronStore).
Arguments Ret {A}.
Arguments Blocked {A}.

Definition with_mu (st : cronStore) (m : rwmutex) : cronStore :=
  {| mu := m; jobs := jobs st |}.
Definition with_jobs (st : cronStore) (j : jobmap) : cronStore :=
  {| mu := mu st; jobs := j |}.

(** [mu.Lock()], [mu.RLock()]: [None] when the call cannot proceed. *)
Definition lock (m : rwmutex) : option rwmutex :=
  match m with Unlocked => Some WLocked | _ => None end.
Definition rlock (m : rwmutex) : option rwmutex :=
  match m with
  | Unlocked => Some (RLocked 1)
  | RLocked n => Some (RLocked (S n))
  | WLocked => None
  end.
Definition runlock (m : rwmutex) : rwmutex :=
  match m with
  | RLocked (S (S n)) => RLocked (S n)
  | _ => Unlocked
  end.

(** [save]: [json.MarshalIndent] of these structs cannot fail, so the
    result is that of [os.WriteFile], an input here ([None]: success). *)
Definition save (write_result : option string) : option string := write_result.

(** One crontab line: [Minute Hour Day Month Weekday Command # cluster-manager:ID]. *)
Definition crontab_line (j : CronJob) : string :=
  Minute (Schedule j) ++ " " ++ Hour (Schedule j) ++ " " ++ Day (Schedule j) ++ " " ++
  Month (Schedule j) ++ " " ++ Weekday (Schedule j) ++ " " ++ Command j ++
  " # cluster-manager:" ++ ID j.

Definition crontab_header : string := "# Managed by cluster-manager - DO NOT EDIT".

(** The file content built by [syncCrontab] from the map. *)
Definition crontab_lines (m : jobmap) : list string :=
  crontab_header :: map crontab_line (filter Enabled (map snd m)).

(** [for _, line := range lines { content += line + "\n" }]. *)
Definition crontab_content (m : jobmap) : string :=
  fold_left (fun (acc line : string) => (acc ++ (line ++ Main.newline))%string)
    (crontab_lines m) ""%string.

(** [syncCrontab]: under [store.mu.RLock()], builds the content and writes
    it to the two crontab files (their errors are ignored). *)
Definition syncCrontab (st : cronStore) : outcome string :=
  match rlock (mu st) with
  | None => Blocked st
  | Some m => Ret (with_mu st (runlock m)) (crontab_content (jobs st))
  end.

(** [store.create(job)] with the fresh [uuid], the time [now] and the
    result [wr] of the file write.  Returns the job as stored and the error. *)
Definition create (st : cronStore) (job : CronJob) (uuid : string) (now : Z)
    (wr : option string) : outcome (CronJob * option string) :=
  match lock (mu st) with
  | None => Blocked st
  | Some m =>
      let job := {| ID := uuid; Name := Name job; Schedule := Schedule job;
                    Command := Command job; Enabled := Enabled job;
                    LastRun := LastRun job; LastStatus := LastStatus job;
                    CreatedAt := now |} in
      let st := {| mu := m; jobs := map_set (jobs st) uuid job |} in
      match save wr with
      | Some e => Ret {| mu := Unlocked; jobs := map_delete (jobs st) uuid |} (job, Some e)
      | None =>
          if Enabled job then
            match syncCrontab st with
            | Blocked st' => Blocked st'
            | Ret st' _ => Ret (with_mu st' Unlocked) (job, None)
            end
          else Ret (with_mu st Unlocked) (job, None)
      end
  end.

(** [store.update(id, job)]. *)
Definition update (st : cronStore) (id : string) (job : CronJob)
    (wr : option string) : outcome (option string) :=
  match lock (mu st) with
  | None => Blocked st
  | Some m =>
      match map_get (jobs st) id with
      | None => Ret (with_mu st Unlocked) (Some "job not found"%string)
      | Some existing =>
          let job := {| ID := id; Name := Name job; Schedule := Schedule job;
                        Command := Command job; Enabled := Enabled job;
                        LastRun := LastRun existing; LastStatus := LastStatus existing;
                        CreatedAt := CreatedAt existing |} in
          let st := {| mu := m; jobs := map_set (jobs st) id job |} in
          match save wr with
          | Some e => Ret {| mu := Unlocked; jobs := map_set (jobs st) id existing |} (Some e)
          | None =>
              match syncCrontab st with
              | Blocked st' => Blocked st'
              | Ret st' _ => Ret (with_mu st' Unlocked) None
              end
          end
      end
  end.

(** [store.delete(id)]. *)
Definition delete (st : cronStore) (id : string) (wr : option string)
  : outcome (option string) :=
  match lock (mu st) with
  | None => Blocked st
  | Some m =>
      match map_get (jobs st) id with
      | None => Ret (with_mu st Unlocked) (Some "job not found"%string)
      | Some existing =>
          let st := {| mu := m; jobs := map_delete (jobs st) id |} in
          match save wr with
          | Some e => Ret {| mu := Unlocked; jobs := map_set (jobs st) id existing |} (Some e)
          | None =>
              match syncCrontab st with
              | Blocked st' => Blocked st'
              | Ret st' _ => Ret (with_mu st' Unlocked) None
              end
          end
      end
  end.

(** [store.updateRunStatus(id, status)]; the result of [save] is ignored. *)
Definition updateRunStatus (st : cronStore) (id status : string) (now : Z)
    (wr : option string) : outcome unit :=
  match lock (mu st) with
  | None => Blocked st
  | Some m =>
      match map_get (jobs st) id with
      | None => Ret (with_mu st Unlocked) tt
      | Some job =>
          let job := {| ID := ID job; Name := Name job; Schedule := Schedule job;
                        Command := Command job; Enabled := Enabled job;
                        LastRun := Some now; LastStatus := status;
                        CreatedAt := CreatedAt job |} in
          let _ := save wr in
          Ret {| mu := Unlocked; jobs := map_set (jobs st) id job |} tt
      end
  end.

(** [store.get(id)]. *)
Definition get (st : cronStore) (id : string) : outcome (option CronJob) :=
  match rlock (mu st) with
  | None => Blocked st
  | Some m => Ret (with_mu st (runlock m)) (map_get (jobs st) id)
  end.

(** Bodies of the responses: [http.Error] text, a job (or [null]) as JSON,
    or [{"status": s}]. *)
Inductive body := BText (s : string) | BJob (j : option CronJob) | BStatus (s : string).

Record hresponse := { code : Z; hbody : body }.

Definition herror (msg : string) (c : Z) : hresponse :=
  {| code := c; hbody := BText (msg ++ Main.newline) |}.

(** A handler answers, or its goroutine blocks for ever. *)
Inductive houtcome := HRet (st : cronStore) (r : hresponse) | HBlocked (st : cronStore).

(** [handleCronCreate]; [payload] is the decoded body, [None] when
    [json.Decode] fails. *)
Definition handleCronCreate (st : cronStore) (payload : option CronJob) (uuid : string)
    (now : Z) (wr : option string) : houtcome :=
  match payload with
  | None => HRet st (herror "invalid payload" 400)
  | Some job =>
      if String.eqb (Name job) "" || String.eqb (Command job) ""
      then HRet st (herror "name and command required" 400)
      else
        let (sc, err) := validateSchedule (Schedule job) in
        match err with
        | Some e => HRet st (herror e 400)
        | None =>
            match create st (with_schedule job sc) uuid now wr with
            | Blocked st' => HBlocked st'
            | Ret st' (_, Some e) => HRet st' (herror e 500)
            | Ret st' (j, None) => HRet st' {| code := 201; hbody := BJob (Some j) |}
            end
        end
  end.

(** [handleCronUpdate]. *)
Definition handleCronUpdate (st : cronStore) (id : string) (payload : option CronJob)
    (wr : option string) : houtcome :=
  if String.eqb id "" then HRet st (herror "id required" 400)
  else
    match payload with
    | None => HRet st (herror "invalid payload" 400)
    | Some job =>
        if String.eqb (Name job) "" || String.eqb (Command job) ""
        then HRet st (herror "name and command required" 400)
        else
          let (sc, err) := validateSchedule (Schedule job) in
          match err with
          | Some e => HRet st (herror e 400)
          | None =>
              match update st id (with_schedule job sc) wr with
              | Blocked st' => HBlocked st'
              | Ret st' (Some e) =>
                  if String.eqb e "job not found" then HRet st' (herror e 404)
                  else HRet st' (herror e 500)
              | Ret st' None =>
                  match get st' id with
                  | Blocked st'' => HBlocked st''
                  | Ret st'' j => HRet st'' {| code := 200; hbody := BJob j |}
                  end
              end
          end
    end.

(** [handleCronDelete]. *)
Definition handleCronDelete (st : cronStore) (id : string) (wr : option string) : houtcome :=
  if String.eqb id "" then HRet st (herror "id required" 400)
  else
    match delete st id wr with
    | Blocked st' => HBlocked st'
    | Ret st' (Some e) =>
        if String.eqb e "job not found" then HRet st' (herror e 404)
        else HRet st' (herror e 500)
    | Ret st' None => HRet st' {| code := 200; hbody := BStatus "ok" |}
    end.

End Cron.

Module CronFacts.
Import Cron.

Lemma map_get_set_same (m : jobmap) (k : string) (v : CronJob) :
  map_get (map_set m k v) k = Some v.
Proof.
  induction m as [|[k' v'] m IH]; simpl.
  - rewrite String.eqb_refl. reflexivity.
  - destruct (String.eqb k' k) eqn:E; simpl.
    + rewrite String.eqb_refl. reflexivity.
    + rewrite E. exact IH.
Qed.

Lemma map_get_set_other (m : jobmap) (k k' : string) (v : CronJob) :
  k' <> k -> map_get (map_set m k v) k' = map_get m k'.
Proof.
  intro Hne. apply String.eqb_neq in Hne.
  induction m as [|[k0 v0] m IH]; simpl.
  - rewrite String.eqb_sym, Hne. reflexivity.
  - destruct (String.eqb k0 k) eqn:E; simpl.
    + apply String.eqb_eq in E; subst k0. rewrite String.eqb_sym, Hne. reflexivity.
    + rewrite IH. reflexivity.
Qed.

Lemma map_get_delete_same (m : jobmap) (k : string) :
  map_get (map_delete m k) k = None.
Proof.
  unfold map_delete; induction m as [|[k0 v0] m IH]; simpl; [reflexivity|].
  destruct (String.eqb k0 k) eqn:E; simpl; [exact IH|]. rewrite E. exact IH.
Qed.

Lemma map_get_delete_other (m : jobmap) (k k' : string) :
  k' <> k -> map_get (map_delete m k) k' = map_get m k'.
Proof.
  intro Hne. unfold map_delete; induction m as [|[k0 v0] m IH]; simpl; [reflexivity|].
  destruct (String.eqb k0 k) eqn:E; simpl.
  - apply String.eqb_eq in E; subst k0.
    destruct (String.eqb k k') eqn:E'; [apply String.eqb_eq in E'; congruence|]. exact IH.
  - rewrite IH. reflexivity.
Qed.

(** Setting a key back to the value it has changes no lookup. *)
Lemma map_get_set_restore (m : jobmap) (k : string) (v w : CronJob) :
  map_get m k = Some v -> forall k', map_get (map_set (map_set m k w) k v) k' = map_get m k'.
Proof.
  intros Hv k'. destruct (String.eqb_spec k' k) as [->|Hne].
  - rewrite map_get_set_same. congruence.
  - rewrite !map_get_set_other by exact Hne. reflexivity.
Qed.

Lemma map_get_delete_restore (m : jobmap) (k : string) (v : CronJob) :
  map_get m k = Some v -> forall k', map_get (map_set (map_delete m k) k v) k' = map_get m k'.
Proof.
  intros Hv k'. destruct (String.eqb_spec k' k) as [->|Hne].
  - rewrite map_get_set_same. congruence.
  - rewrite map_get_set_other, map_get_delete_other by exact Hne. reflexivity.
Qed.

Lemma map_get_set_delete_fresh (m : jobmap) (k : string) (v : CronJob) :
  map_get m k = None -> forall k', map_get (map_delete (map_set m k v) k) k' = map_get m k'.
Proof.
  intros Hn k'. destruct (String.eqb_spec k' k) as [->|Hne].
  - rewrite map_get_delete_same. congruence.
  - rewrite map_get_delete_other, map_get_set_other by exact Hne. reflexivity.
Qed.

Lemma string_append_assoc (a b c : string) : ((a ++ b) ++ c)%string = (a ++ (b ++ c))%string.
Proof. induction a as [|x a IH]; simpl; [reflexivity|]. rewrite IH. reflexivity. Qed.

Lemma string_append_empty (a : string) : (a ++ "")%string = a.
Proof. induction a as [|x a IH]; simpl; [reflexivity|]. rewrite IH. reflexivity. Qed.

Lemma fold_append_concat (ls : list string) (acc : string) :
  fold_left (fun (acc line : string) => (acc ++ (line ++ Main.newline))%string) ls acc
  = (acc ++ String.concat "" (map (fun l => l ++ Main.newline) ls))%string.
Proof.
  revert acc; induction ls as [|l ls IH]; intro acc; simpl.
  - rewrite string_append_empty. reflexivity.
  - rewrite IH. rewrite string_append_assoc. f_equal.
    destruct ls as [|l' ls]; simpl; [rewrite string_append_empty; reflexivity|reflexivity].
Qed.

End CronFacts.

(** * Claims *)

Import Resize ResizeFacts Session SessionFacts.

(** Scheduler prefix used below: the websocket -> pty goroutine receives
    [{"cols":100,"rows":40}] and applies it. *)
Definition resize_100x40 : label := LIn (RData (jq "{'cols':100,'rows':40}")) true.

(** ** C1 *)

(** C1 (counterexample): after the geometry 40 rows x 100 columns was set,
    [{"cols":132}] also resets the rows to 24; after 50 x 132,
    [{"cols":0,"rows":40}] resets the columns to 80. *)
Lemma resize_partial_frame_resets_other_axis :
  option_map geometry
    (exec_all init_session [resize_100x40; LIn (RData (jq "{'cols':132}")) true])
  = Some {| ws_rows := 24; ws_cols := 132 |} /\
  option_map geometry
    (exec_all init_session [LIn (RData (jq "{'cols':132,'rows':50}")) true;
                            LIn (RData (jq "{'cols':0,'rows':40}")) true])
  = Some {| ws_rows := 40; ws_cols := 80 |}.
Proof. split; vm_compute; reflexivity. Qed.

(** C1 (amended): a control frame that is decoded sets the geometry to the
    decoded size, computed from the frame alone; an axis whose key is absent
    or whose every value reads as 0 gets the hardcoded default (80 columns,
    24 rows), whatever the previous geometry. *)
Theorem resize_absent_axis_default (s s' : session) (c : bytes) (g : winsize) (ok : bool) :
  ws_closed s = false -> hd_error c = Some "{"%char ->
  exec s (LIn (RData c) ok) = Some s' -> handleResize c = Some g ->
  geometry s' = g /\
  ((forall i, key_at cols_key c i = true -> value_at c i = Some 0) -> ws_cols g = 80) /\
  ((forall i, key_at rows_key c i = true -> value_at c i = Some 0) -> ws_rows g = 24).
Proof.
  intros Hws Hhd Hx Hg.
  split; [|split; intro Hz;
           [exact (handleResize_cols_default c g Hz Hg)
           |exact (handleResize_rows_default c g Hz Hg)]].
  destruct c as [|a c]; [discriminate|]. injection Hhd as ->.
  unfold exec in Hx. destruct (panicked s); [discriminate|].
  destruct (in_loop s); [|discriminate]. injection Hx as <-.
  unfold in_iter. rewrite Hws. simpl. rewrite Hg. reflexivity.
Qed.

Lemma resize_absent_axis_default_witness :
  exists s', exec init_session (LIn (RData (jq "{'cols':132}")) true) = Some s' /\
  geometry s' = {| ws_rows := 24; ws_cols := 132 |}.
Proof.
  eexists. split; [reflexivity|].
  apply (resize_absent_axis_default init_session _ (jq "{'cols':132}")
           {| ws_rows := 24; ws_cols := 132 |} true);
    reflexivity.
Defined.

(** ** C2 *)

(** C2 (code bug): a frame truncated right after a key, [{"cols":80,"rows":],
    makes the separator loop index one past the end of the string: the
    decoder panics and the panic stops the program. *)
Theorem resize_truncated_frame_panics :
  handleResize (jq "{'cols':80,'rows':") = None /\
  handleResize (jq "{'a':1,'cols'") = None /\
  option_map panicked (exec init_session (LIn (RData (jq "{'cols':80,'rows':")) true))
  = Some true.
Proof. vm_compute. repeat split. Qed.

(** ** C3 *)

(** C3 (code bug): [done] is closed by the websocket -> pty goroutine on a
    read error and again by the main goroutine after [cmd.Wait()]; the second
    [close] panics, in either order.  When the main goroutine's close comes
    second, net/http recovers the panic after the deferred [ptmx.Close()];
    when the other goroutine's close comes second, the panic ends the
    program. *)
Theorem done_closed_twice_panics :
  option_map (fun s => (panicked s, trace s))
    (exec_all init_session [LIn REof true; LMain; LMain])
  = Some (false, [EvPtyClose; EvPanic "close of closed channel"; EvInterrupt; EvCloseDone;
                  EvSetsize default_winsize]) /\
  option_map (fun s => (panicked s, trace s))
    (exec_all init_session [LMain; LMain; LMain; LIn (RData (jq "ls")) true])
  = Some (true, [EvPanic "close of closed channel"; EvLog "ws read error";
                 EvWsClose; EvCloseDone; EvSetsize default_winsize]).
Proof. split; vm_compute; reflexivity. Qed.

(** ** C4 *)

(** C4 (counterexample): after the geometry 40 x 100 was set, the frame
    [{}] and a key-less garbage frame each reset it to 24 x 80. *)
Lemma resize_empty_frame_not_noop :
  option_map geometry (exec_all init_session [resize_100x40; LIn (RData (jq "{}")) true])
  = Some default_winsize /\
  option_map geometry
    (exec_all init_session [resize_100x40; LIn (RData (jq "{garbage: xyz, 99}")) true])
  = Some default_winsize.
Proof. split; vm_compute; reflexivity. Qed.

(** C4 (amended): a control frame in which neither key occurs (such as [{}]
    or garbage) is not a no-op: the decoder cannot fail on it and it resets
    the geometry to the default 24 rows x 80 columns, whatever it was. *)
Theorem resize_keyless_frame_resets_default (s s' : session) (c : bytes) (ok : bool) :
  ws_closed s = false -> hd_error c = Some "{"%char ->
  (forall i, key_at cols_key c i = false /\ key_at rows_key c i = false) ->
  exec s (LIn (RData c) ok) = Some s' ->
  panicked s' = false /\ geometry s' = default_winsize.
Proof.
  intros Hws Hhd Hk Hx.
  destruct c as [|a c]; [discriminate|]. injection Hhd as ->.
  unfold exec in Hx. destruct (panicked s) eqn:Hp; [discriminate|].
  destruct (in_loop s); [|discriminate]. injection Hx as <-.
  unfold in_iter. rewrite Hws. simpl. rewrite (handleResize_no_keys _ Hk).
  split; [exact Hp | reflexivity].
Qed.

Lemma resize_keyless_frame_resets_default_witness :
  exists s1 s2, exec_all init_session [resize_100x40] = Some s1 /\
  geometry s1 = {| ws_rows := 40; ws_cols := 100 |} /\
  exec s1 (LIn (RData (jq "{}")) true) = Some s2 /\ geometry s2 = default_winsize.
Proof.
  pose (s1 := match exec_all init_session [resize_100x40] with
              | Some s => s | None => init_session end).
  exists s1. eexists. split; [reflexivity|]. split; [reflexivity|]. split; [reflexivity|].
  eapply proj2, (resize_keyless_frame_resets_default s1 _ (jq "{}") true).
  - reflexivity.
  - reflexivity.
  - intro i; destruct i as [|[|i]]; try (split; reflexivity).
    unfold key_at; simpl; rewrite skipn_nil; split; reflexivity.
  - reflexivity.
Defined.

(** ** C5 *)

(** C5: in every execution, the chunks passed to [ptmx.Write] are exactly
    the non-empty chunks read from the websocket that do not start with
    ['{'], verbatim and in order; a chunk starting with ['{'] is never
    written to the pseudo-terminal. *)
Theorem control_frames_never_forwarded (s : session) :
  reachable s -> pty_writes (trace s) = filter forwarded (ws_reads s).
Proof. exact (reachable_pty_writes s). Qed.

Lemma control_frames_never_forwarded_witness :
  exists s, exec_all init_session
              [LIn (RData (jq "ls")) true; resize_100x40;
               LIn (RData (jq "{x")) true; LIn (RData (jq "pwd")) true] = Some s /\
  pty_writes (trace s) = [jq "pwd"; jq "ls"].
Proof.
  pose (L := [LIn (RData (jq "ls")) true; resize_100x40;
              LIn (RData (jq "{x")) true; LIn (RData (jq "pwd")) true]).
  pose (s := match exec_all init_session L with Some s => s | None => init_session end).
  assert (Hx : exec_all init_session L = Some s) by (vm_compute; reflexivity).
  exists s. split; [exact Hx|].
  rewrite (control_frames_never_forwarded s (exec_all_reachable L init_session s reach_init Hx)).
  vm_compute; reflexivity.
Defined.

(** ** C6 *)

(** C6 (code bug): the client disconnects, so the websocket -> pty
    goroutine closes [done] and returns; then the process exits.  The main
    goroutine's [close(done)] panics, the deferred [ptmx.Close()] releases
    the pseudo-terminal while the pty -> websocket goroutine is still
    running, and the handler is left without [ws.Close()] or [wg.Wait()]. *)
Theorem shutdown_releases_before_loops_exit :
  exists s, exec_all init_session [LIn REof true; LMain; LMain] = Some s /\
  pty_closed s = true /\ out_loop s = Running /\ ws_closed s = false /\
  pc s = PcReturned /\ panicked s = false /\
  trace s = [EvPtyClose; EvPanic "close of closed channel"; EvInterrupt; EvCloseDone;
             EvSetsize default_winsize].
Proof.
  eexists. split; [vm_compute; reflexivity|]. vm_compute. repeat split.
Qed.

(** ** C7 *)

(** Events an iteration adds in front of the trace. *)
Definition added_events (s s' : session) : list event :=
  firstn (List.length (trace s') - List.length (trace s)) (trace s').

(** C7 (code bug): when the process exits first, the main goroutine closes
    [done] and the websocket; the websocket -> pty goroutine's next read
    fails and its [close(done)] panics, so it neither requests the interrupt
    nor returns (same defect as C3). *)
Theorem transport_error_after_cleanup_panics :
  exists s s', exec_all init_session [LMain; LMain; LMain] = Some s /\
  done s = true /\ exec s (LIn REof true) = Some s' /\
  panicked s' = true /\ in_loop s' = Running /\
  added_events s s' = [EvPanic "close of closed channel"; EvLog "ws read error"].
Proof.
  pose (s := match exec_all init_session [LMain; LMain; LMain] with
             | Some s => s | None => init_session end).
  exists s. eexists. split; [vm_compute; reflexivity|]. split; [vm_compute; reflexivity|].
  split; [vm_compute; reflexivity|]. vm_compute. repeat split.
Qed.

(** ** C8 *)

(** The line written to the websocket when [pty.Start] fails. *)
Definition start_failure_line (e : string) : bytes :=
  list_ascii_of_string ("Failed to start terminal: " ++ e ++ crlf).

(** C8: when [pty.Start] fails, [runTerminalSession] writes a diagnostic
    line to the websocket, then closes it, and returns with no session: no
    copy goroutine is started and [pty.Setsize] is never called. *)
Theorem start_failure_reports_and_closes (e : string) :
  let '(evs, o) := runTerminalSession_start (PtyStartErr e) in
  o = None /\
  (exists older, evs = EvWsClose :: EvWsWrite (start_failure_line e) :: older) /\
  (forall w, ~ In (EvSetsize w) evs) /\ ~ In EvPtyRead evs.
Proof.
  simpl. split; [reflexivity|]. split; [eexists; reflexivity|].
  split; [intros w [H|[H|[H|[]]]]; discriminate|].
  intros [H|[H|[H|[]]]]; discriminate.
Qed.

(** ** C9 *)

(** C9: the digit loop accumulates in [uint16], so a field value is read
    modulo 2^16; [{"cols":65536}] reads as 0 for [cols], which is then
    treated as invalid and the default 80 columns is kept. *)
Theorem digits_wrap_uint16 :
  (forall (t : bytes) (a : Z), scan_digits t (wrap16 a) = wrap16 (dec_value t a)) /\
  value_at (jq "{'cols':65536}") 1 = Some 0 /\
  handleResize (jq "{'cols':65536}") = Some {| ws_rows := 24; ws_cols := 80 |}.
Proof.
  split; [exact scan_digits_mod|]. split; vm_compute; reflexivity.
Qed.

(** ** C10 *)

(** C10: when [ws.Write] fails in the pty -> websocket goroutine, the
    goroutine logs and returns; it does not close [done], does not signal
    the process and does not panic. *)
Theorem ws_write_error_exit_frame (s s' : session) (b : bytes) (ok : bool) :
  b <> [] -> done s = false -> (ok = false \/ ws_closed s = true) ->
  exec s (LOut (RData b) ok) = Some s' ->
  out_loop s' = Exited /\ done s' = done s /\ panicked s' = false /\
  trace s' = [EvLog "ws write error"; EvWsWrite b; EvPtyRead] ++ trace s /\
  in_loop s' = in_loop s /\ ws_closed s' = ws_closed s.
Proof.
  intros Hb Hd Hok Hx.
  unfold exec in Hx. destruct (panicked s) eqn:Hp; [discriminate|].
  destruct (out_loop s); [|discriminate]. injection Hx as <-.
  unfold out_iter. rewrite Hd.
  destruct b as [|c b]; [congruence|].
  assert (Hw : (ok && negb (ws_closed s)) = false)
    by (destruct Hok as [-> | ->]; [reflexivity | apply andb_false_r]).
  simpl. rewrite Hw. simpl. repeat split; assumption.
Qed.

Lemma ws_write_error_exit_frame_witness :
  exists s', exec init_session (LOut (RData (jq "$ ")) false) = Some s' /\
  out_loop s' = Exited /\ done s' = false.
Proof.
  pose (s' := match exec init_session (LOut (RData (jq "$ ")) false) with
              | Some s => s | None => init_session end).
  exists s'. split; [reflexivity|].
  destruct (ws_write_error_exit_frame init_session s' (jq "$ ") false)
    as (H1 & H2 & _).
  - discriminate.
  - reflexivity.
  - left; reflexivity.
  - reflexivity.
  - split; [exact H1 | exact H2].
Defined.

(** * Further properties of the code *)

Import SessionBounds MainFacts.

(** The session geometry stays in [1, 65535] on both axes in every
    execution: [handleResize] only keeps positive [uint16] values. *)
Theorem session_geometry_in_range (s : session) :
  reachable s -> 0 < ws_rows (geometry s) < 65536 /\ 0 < ws_cols (geometry s) < 65536.
Proof. exact (reachable_geometry s). Qed.

Lemma session_geometry_in_range_witness :
  exists s, exec_all init_session [resize_100x40] = Some s /\
  0 < ws_rows (geometry s) < 65536 /\ 0 < ws_cols (geometry s) < 65536.
Proof.
  pose (s := match exec_all init_session [resize_100x40] with
             | Some s => s | None => init_session end).
  assert (Hx : exec_all init_session [resize_100x40] = Some s) by (vm_compute; reflexivity).
  exists s. split; [exact Hx|].
  exact (session_geometry_in_range s (exec_all_reachable _ init_session s reach_init Hx)).
Defined.

(** In every execution the process is sent [os.Interrupt] at most once,
    only after [done] was closed, and never while the websocket -> pty
    goroutine is still running. *)
Theorem session_interrupt_at_most_once (s : session) :
  reachable s ->
  (interrupts (trace s) <= 1)%nat /\
  (interrupts (trace s) <> O -> done s = true) /\
  (in_loop s = Running -> interrupts (trace s) = O).
Proof.
  intro H. destruct (reachable_interrupt_inv s H) as (I1 & I2 & I3). auto.
Qed.

Lemma session_interrupt_at_most_once_witness :
  exists s, exec_all init_session [LIn REof true] = Some s /\ interrupts (trace s) = 1%nat /\
  done s = true.
Proof.
  pose (s := match exec_all init_session [LIn REof true] with
             | Some s => s | None => init_session end).
  assert (Hx : exec_all init_session [LIn REof true] = Some s) by (vm_compute; reflexivity).
  exists s. split; [exact Hx|]. split; [vm_compute; reflexivity|].
  apply (session_interrupt_at_most_once s (exec_all_reachable _ init_session s reach_init Hx)).
  vm_compute; discriminate.
Defined.

(** [intToStr n] for [0 <= n < 100] is the decimal representation of [n]:
    one or two digits reading back as [n], no leading zero unless [n = 0]. *)
Theorem intToStr_two_digits (n : Z) :
  0 <= n < 100 ->
  let t := Main.intToStr n in
  dec_value t 0 = n /\ forallb is_digit t = true /\
  (1 <= List.length t <= 2)%nat /\
  (n <> 0 -> exists c t', t = c :: t' /\ c <> "0"%char).
Proof.
  intro Hn. pose proof (renders_decimal_range n Hn) as H.
  unfold renders_decimal in H. simpl.
  destruct (Main.intToStr n) as [|c t'] eqn:Et.
  - simpl in H. rewrite !andb_false_r in H. discriminate.
  - apply andb_prop in H as [H H5]. apply andb_prop in H as [H H4].
    apply andb_prop in H as [H H3]. apply andb_prop in H as [H1 H2].
    apply Z.eqb_eq in H1. apply Nat.leb_le in H3. apply Nat.leb_le in H4.
    split; [exact H1|]. split; [exact H2|]. split; [lia|].
    intro Hn0. exists c, t'. split; [reflexivity|].
    apply Z.eqb_neq in Hn0. rewrite Hn0 in H5. simpl in H5.
    intro Hc. subst c. discriminate.
Qed.

Lemma intToStr_two_digits_witness :
  0 <= 42 < 100 /\ dec_value (Main.intToStr 42) 0 = 42.
Proof.
  split; [lia|]. exact (proj1 (intToStr_two_digits 42 ltac:(lia))).
Defined.

(** [intToStr n] for [100 <= n < 800] is two bytes: ['0' + n/10], which
    is not a digit, then ['0' + n%10]; [intToStr 100] is [":0"]. *)
Theorem intToStr_three_digits_garbled (n : Z) :
  100 <= n < 800 ->
  Main.intToStr n = [ascii_of_nat (Z.to_nat (48 + Z.quot n 10));
                     ascii_of_nat (Z.to_nat (48 + Z.rem n 10))] /\
  is_digit (ascii_of_nat (Z.to_nat (48 + Z.quot n 10))) = false.
Proof.
  intro Hn. pose proof (renders_non_digit_range n Hn) as H.
  unfold renders_non_digit in H.
  destruct (Main.intToStr n) as [|c [|d [|e t]]]; try discriminate.
  apply andb_prop in H as [H H2]. apply andb_prop in H as [H1 H3].
  apply Ascii.eqb_eq in H1, H2. subst c d. split; [reflexivity|].
  destruct (is_digit _); [discriminate|reflexivity].
Qed.

Lemma intToStr_three_digits_garbled_witness :
  100 <= 100 < 800 /\ Main.intToStr 100 = jq ":0".
Proof.
  split; [lia|].
  rewrite (proj1 (intToStr_three_digits_garbled 100 ltac:(lia))).
  vm_compute. reflexivity.
Defined.

(** The websocket endpoint and the HTTP middleware admit the same requests:
    either [handleTerminal] closes the connection and [authMiddleware]
    answers 401 ["unauthorized"] whatever the wrapped handler, or
    [handleTerminal] runs [chroot <hostRoot> <shell> -l] ([$SHELL], or
    [/bin/bash] when unset) and [authMiddleware] calls the wrapped handler. *)
Theorem auth_gates_agree (secret hostRoot shellEnv : string) (environ : list string)
    (r : Main.request) :
  (Main.handleTerminal secret hostRoot environ shellEnv r = Main.TermClosed /\
   secret <> ""%string /\ Main.hdr_secret r <> secret /\
   forall next, Main.authMiddleware secret next r = Main.http_error "unauthorized" 401) \/
  ((secret = ""%string \/ Main.hdr_secret r = secret) /\
   (exists env, Main.handleTerminal secret hostRoot environ shellEnv r =
     Main.TermRun ["chroot"; hostRoot;
                   if String.eqb shellEnv "" then "/bin/bash" else shellEnv; "-l"]%string env) /\
   forall next, Main.authMiddleware secret next r = next r).
Proof.
  unfold Main.handleTerminal, Main.authMiddleware.
  destruct (String.eqb_spec secret "") as [Hs|Hs]; simpl.
  - right. split; [left; exact Hs|]. split; [eexists; reflexivity|]. reflexivity.
  - destruct (String.eqb_spec (Main.hdr_secret r) secret) as [Hh|Hh]; simpl.
    + right. split; [right; exact Hh|]. split; [eexists; reflexivity|]. reflexivity.
    + left. repeat split; assumption.
Qed.

Import Cron CronFacts.

(** [validateSchedule] never fails; afterwards every field is non-empty,
    an empty [Second] became ["0"], every other empty field ["*"], fields
    given are kept, and a second call changes nothing. *)
Theorem validateSchedule_fills (sc : CronSchedule) :
  let sc' := fst (validateSchedule sc) in
  snd (validateSchedule sc) = None /\
  (forall f, In f [Second; Minute; Hour; Day; Month; Weekday] ->
     f sc' <> ""%string /\ (f sc <> ""%string -> f sc' = f sc)) /\
  (Second sc = ""%string -> Second sc' = "0"%string) /\
  (forall f, In f [Minute; Hour; Day; Month; Weekday] ->
     f sc = ""%string -> f sc' = "*"%string) /\
  validateSchedule sc' = (sc', None).
Proof.
  destruct sc as [se mi ho da mo we]; simpl.
  split; [reflexivity|].
  split; [|split; [|split]].
  - intros f Hf.
    destruct Hf as [<-|[<-|[<-|[<-|[<-|[<-|[]]]]]]]; simpl;
      match goal with |- context [String.eqb ?x ""] =>
        destruct (String.eqb_spec x ""); split; congruence end.
  - intro H. subst se. reflexivity.
  - intros f Hf Hempty.
    destruct Hf as [<-|[<-|[<-|[<-|[<-|[]]]]]]; simpl in *; subst; reflexivity.
  - unfold validateSchedule; simpl.
    destruct (String.eqb se "") eqn:E1, (String.eqb mi "") eqn:E2,
      (String.eqb ho "") eqn:E3, (String.eqb da "") eqn:E4, (String.eqb mo "") eqn:E5,
      (String.eqb we "") eqn:E6; simpl; rewrite ?E1, ?E2, ?E3, ?E4, ?E5, ?E6; reflexivity.
Qed.

(** [PUT /cron/{id}] with a valid payload for an id that is not in the
    store answers 404 ["job not found"] and leaves the store as it was. *)
Theorem update_missing_job_404 (st : cronStore) (id : string) (job : CronJob)
    (wr : option string) :
  mu st = Unlocked -> id <> ""%string -> Name job <> ""%string -> Command job <> ""%string ->
  map_get (jobs st) id = None ->
  handleCronUpdate st id (Some job) wr = HRet st (herror "job not found" 404).
Proof.
  intros Hmu Hid Hn Hc Hget. unfold handleCronUpdate.
  apply String.eqb_neq in Hid, Hn, Hc. rewrite Hid, Hn, Hc. simpl.
  unfold update. rewrite Hmu. simpl. rewrite Hget.
  destruct st as [m j]; simpl in *; subst m. reflexivity.
Qed.

Definition sample_schedule : CronSchedule :=
  {| Second := ""; Minute := "*/5"; Hour := ""; Day := ""; Month := ""; Weekday := "" |}%string.

Definition sample_job (enabled : bool) : CronJob :=
  {| ID := ""; Name := "backup"; Schedule := sample_schedule; Command := "tar czf /b.tgz /etc";
     Enabled := enabled; LastRun := None; LastStatus := ""; CreatedAt := 0 |}%string.

Definition sample_store : cronStore :=
  {| mu := Unlocked;
     jobs := [("a1"%string, {| ID := "a1"; Name := "old"; Schedule := sample_schedule;
                               Command := "true"; Enabled := true; LastRun := Some 5;
                               LastStatus := "success"; CreatedAt := 1 |}%string)] |}.

Lemma update_missing_job_404_witness :
  handleCronUpdate sample_store "zz" (Some (sample_job false)) None
  = HRet sample_store (herror "job not found" 404).
Proof.
  apply update_missing_job_404; try reflexivity; discriminate.
Defined.

(** When the file write fails, [store.update] returns the error, releases
    the lock and restores the previous job: no lookup changes. *)
Theorem update_save_failure_rolls_back (st : cronStore) (id e : string) (job existing : CronJob) :
  mu st = Unlocked -> map_get (jobs st) id = Some existing ->
  exists st', update st id job (Some e) = Ret st' (Some e) /\ mu st' = Unlocked /\
  forall k, map_get (jobs st') k = map_get (jobs st) k.
Proof.
  intros Hmu Hget. unfold update. rewrite Hmu. simpl. rewrite Hget.
  eexists. split; [reflexivity|]. split; [reflexivity|].
  simpl. apply map_get_set_restore. exact Hget.
Qed.

Lemma update_save_failure_rolls_back_witness :
  exists st', update sample_store "a1" (sample_job true) (Some "disk full"%string)
              = Ret st' (Some "disk full"%string) /\ mu st' = Unlocked.
Proof.
  destruct (update_save_failure_rolls_back sample_store "a1" "disk full" (sample_job true)
              (match map_get (jobs sample_store) "a1" with Some j => j | None => sample_job true end))
    as (st' & H1 & H2 & _); [reflexivity|reflexivity|].
  exists st'. split; assumption.
Defined.

(** When the file write fails, [store.delete] returns the error, releases
    the lock and puts the job back: no lookup changes. *)
Theorem delete_save_failure_rolls_back (st : cronStore) (id e : string) (existing : CronJob) :
  mu st = Unlocked -> map_get (jobs st) id = Some existing ->
  exists st', delete st id (Some e) = Ret st' (Some e) /\ mu st' = Unlocked /\
  forall k, map_get (jobs st') k = map_get (jobs st) k.
Proof.
  intros Hmu Hget. unfold delete. rewrite Hmu. simpl. rewrite Hget.
  eexists. split; [reflexivity|]. split; [reflexivity|].
  simpl. apply map_get_delete_restore. exact Hget.
Qed.

Lemma delete_save_failure_rolls_back_witness :
  exists st', delete sample_store "a1" (Some "disk full"%string) = Ret st' (Some "disk full"%string).
Proof.
  destruct (delete_save_failure_rolls_back sample_store "a1" "disk full"
              (match map_get (jobs sample_store) "a1" with Some j => j | None => sample_job true end))
    as (st' & H1 & _); [reflexivity|reflexivity|].
  exists st'. exact H1.
Defined.

(** When the file write fails, [store.create] with a fresh id returns the
    error, releases the lock and leaves every lookup as it was. *)
Theorem create_save_failure_rolls_back (st : cronStore) (job : CronJob) (uuid e : string) (now : Z) :
  mu st = Unlocked -> map_get (jobs st) uuid = None ->
  exists st' j, create st job uuid now (Some e) = Ret st' (j, Some e) /\ mu st' = Unlocked /\
  forall k, map_get (jobs st') k = map_get (jobs st) k.
Proof.
  intros Hmu Hget. unfold create. rewrite Hmu. simpl.
  do 2 eexists. split; [reflexivity|]. split; [reflexivity|].
  simpl. apply map_get_set_delete_fresh. exact Hget.
Qed.

Lemma create_save_failure_rolls_back_witness :
  exists st' j, create sample_store (sample_job true) "b2" 9 (Some "disk full"%string)
                = Ret st' (j, Some "disk full"%string).
Proof.
  destruct (create_save_failure_rolls_back sample_store (sample_job true) "b2" "disk full" 9)
    as (st' & j & H1 & _); [reflexivity|reflexivity|].
  exists st', j. exact H1.
Defined.

(** [POST /cron] with a valid payload of a disabled job and a successful
    write answers 201 with the job under the fresh id and the creation time
    (schedule defaults filled in), stores it under that id, changes no other
    lookup and releases the lock. *)
Theorem create_disabled_job_201 (st : cronStore) (job : CronJob) (uuid : string) (now : Z) :
  mu st = Unlocked -> Name job <> ""%string -> Command job <> ""%string ->
  Enabled job = false ->
  exists st' j,
    handleCronCreate st (Some job) uuid now None = HRet st' {| code := 201; hbody := BJob (Some j) |} /\
    ID j = uuid /\ CreatedAt j = now /\ Name j = Name job /\ Command j = Command job /\
    Schedule j = fst (validateSchedule (Schedule job)) /\
    mu st' = Unlocked /\ map_get (jobs st') uuid = Some j /\
    forall k, k <> uuid -> map_get (jobs st') k = map_get (jobs st) k.
Proof.
  intros Hmu Hn Hc Hen. unfold handleCronCreate.
  apply String.eqb_neq in Hn, Hc. rewrite Hn, Hc. simpl.
  unfold create. rewrite Hmu. simpl. rewrite Hen.
  do 2 eexists. split; [reflexivity|].
  simpl. repeat split.
  - apply map_get_set_same.
  - intros k Hk. apply map_get_set_other. exact Hk.
Qed.

Lemma create_disabled_job_201_witness :
  exists st' j,
    handleCronCreate sample_store (Some (sample_job false)) "b2" 9 None
    = HRet st' {| code := 201; hbody := BJob (Some j) |} /\ ID j = "b2"%string.
Proof.
  destruct (create_disabled_job_201 sample_store (sample_job false) "b2" 9)
    as (st' & j & H1 & H2 & _); try reflexivity; try discriminate.
  exists st', j. split; assumption.
Defined.

(** [update], [delete] of an existing job, and [create] of an enabled job,
    after a successful write call [syncCrontab] while still holding the
    write lock; its [RLock] can never be granted: the call never returns
    and the lock stays held. *)
Theorem store_mutations_deadlock (st : cronStore) (id uuid : string) (job existing : CronJob)
    (now : Z) :
  mu st = Unlocked -> map_get (jobs st) id = Some existing ->
  (exists st', update st id job None = Blocked st' /\ mu st' = WLocked) /\
  (exists st', delete st id None = Blocked st' /\ mu st' = WLocked) /\
  (Enabled job = true -> exists st', create st job uuid now None = Blocked st' /\ mu st' = WLocked).
Proof.
  intros Hmu Hget.
  split; [|split].
  - unfold update, syncCrontab. rewrite Hmu. simpl. rewrite Hget. eexists; split; reflexivity.
  - unfold delete, syncCrontab. rewrite Hmu. simpl. rewrite Hget. eexists; split; reflexivity.
  - intro He. unfold create, syncCrontab. rewrite Hmu. simpl. rewrite He.
    eexists; split; reflexivity.
Qed.

Lemma store_mutations_deadlock_witness :
  exists st', update sample_store "a1" (sample_job false) None = Blocked st'.
Proof.
  destruct (store_mutations_deadlock sample_store "a1" "b2" (sample_job false)
              (match map_get (jobs sample_store) "a1" with Some j => j | None => sample_job true end) 9)
    as ((st' & H & _) & _); [reflexivity|reflexivity|].
  exists st'. exact H.
Defined.

(** [PUT /cron/{id}] and [DELETE /cron/{id}] never answer successfully:
    they answer 400, 404 or 500, or block for ever. *)
Theorem update_delete_never_succeed (st : cronStore) (id : string) (payload : option CronJob)
    (wr : option string) :
  (forall st' r, handleCronUpdate st id payload wr = HRet st' r ->
     code r = 400 \/ code r = 404 \/ code r = 500) /\
  (forall st' r, handleCronDelete st id wr = HRet st' r ->
     code r = 400 \/ code r = 404 \/ code r = 500).
Proof.
  split; intros st' r H.
  - unfold handleCronUpdate in H.
    destruct (String.eqb id ""); [injection H as _ <-; simpl; auto|].
    destruct payload as [job|]; [|injection H as _ <-; simpl; auto].
    destruct (String.eqb (Name job) "" || String.eqb (Command job) "");
      [injection H as _ <-; simpl; auto|].
    simpl in H. unfold update, syncCrontab in H.
    destruct (mu st); simpl in H; try discriminate.
    destruct (map_get (jobs st) id); [|injection H as _ <-; simpl; auto].
    destruct wr; simpl in H; [|discriminate].
    destruct (String.eqb s "job not found"); injection H as _ <-; simpl; auto.
  - unfold handleCronDelete in H.
    destruct (String.eqb id ""); [injection H as _ <-; simpl; auto|].
    unfold delete, syncCrontab in H.
    destruct (mu st); simpl in H; try discriminate.
    destruct (map_get (jobs st) id); [|injection H as _ <-; simpl; auto].
    destruct wr; simpl in H; [|discriminate].
    destruct (String.eqb s "job not found"); injection H as _ <-; simpl; auto.
Qed.

Lemma update_delete_never_succeed_witness :
  exists st' r, handleCronDelete sample_store "zz" None = HRet st' r /\
  (code r = 400 \/ code r = 404 \/ code r = 500).
Proof.
  assert (H : handleCronDelete sample_store "zz" None
              = HRet sample_store (herror "job not found" 404)) by (vm_compute; reflexivity).
  exists sample_store, (herror "job not found" 404). split; [exact H|].
  exact (proj2 (update_delete_never_succeed sample_store "zz" None None) _ _ H).
Defined.

(** [POST /cron] and [PUT /cron/{id}] reject an undecodable body, or a job
    with an empty name or command, with 400 before touching the store. *)
Theorem cron_payload_rejected (st : cronStore) (id : string) (payload : option CronJob)
    (uuid : string) (now : Z) (wr : option string) :
  (payload = None \/ exists j, payload = Some j /\ (Name j = ""%string \/ Command j = ""%string)) ->
  (exists msg, handleCronCreate st payload uuid now wr = HRet st (herror msg 400)) /\
  (exists msg, handleCronUpdate st id payload wr = HRet st (herror msg 400)).
Proof.
  intros [-> | (j & -> & Hj)].
  - unfold handleCronCreate, handleCronUpdate.
    split; [eexists; reflexivity|].
    destruct (String.eqb id ""); eexists; reflexivity.
  - assert (Hb : (String.eqb (Name j) "" || String.eqb (Command j) "")%bool = true).
    { destruct Hj as [H | H]; rewrite H; simpl; [reflexivity|].
      apply Bool.orb_true_r. }
    unfold handleCronCreate, handleCronUpdate. rewrite Hb.
    split; [eexists; reflexivity|].
    destruct (String.eqb id ""); eexists; reflexivity.
Qed.

Lemma cron_payload_rejected_witness :
  exists msg, handleCronCreate sample_store None "b2" 9 None
              = HRet sample_store (herror msg 400).
Proof.
  exact (proj1 (cron_payload_rejected sample_store "a1" None "b2" 9 None (or_introl eq_refl))).
Defined.

(** [updateRunStatus] on a free lock: for a stored id it sets [LastRun] to
    the current time and [LastStatus] to the given status, keeping every
    other field and every other job; for an unknown id it changes nothing.
    The lock is released in both cases, whatever the write does. *)
Theorem updateRunStatus_spec (st : cronStore) (id status : string) (now : Z)
    (wr : option string) :
  mu st = Unlocked ->
  exists st', updateRunStatus st id status now wr = Ret st' tt /\ mu st' = Unlocked /\
    (forall k, k <> id -> map_get (jobs st') k = map_get (jobs st) k) /\
    match map_get (jobs st) id with
    | None => map_get (jobs st') id = None
    | Some j => exists j', map_get (jobs st') id = Some j' /\
        LastRun j' = Some now /\ LastStatus j' = status /\
        ID j' = ID j /\ Name j' = Name j /\ Schedule j' = Schedule j /\
        Command j' = Command j /\ Enabled j' = Enabled j /\ CreatedAt j' = CreatedAt j
    end.
Proof.
  intro Hmu. unfold updateRunStatus. rewrite Hmu. simpl.
  destruct (map_get (jobs st) id) as [j|] eqn:Hg.
  - eexists. split; [reflexivity|]. simpl. split; [reflexivity|]. split.
    + intros k Hk. apply map_get_set_other. exact Hk.
    + eexists. split; [apply map_get_set_same|]. simpl. repeat split.
  - eexists. split; [reflexivity|]. simpl. split; [reflexivity|].
    split; [intros; reflexivity | exact Hg].
Qed.

Lemma updateRunStatus_spec_witness :
  exists st', updateRunStatus sample_store "a1" "success" 42 (Some "disk full"%string)
              = Ret st' tt /\ mu st' = Unlocked.
Proof.
  destruct (updateRunStatus_spec sample_store "a1" "success" 42 (Some "disk full"%string) eq_refl)
    as (st' & H1 & H2 & _).
  exists st'. split; assumption.
Defined.

(** The crontab written by [syncCrontab] is the header line followed by
    one line per enabled job, in map order, each ended by a newline;
    disabled jobs never appear. *)
Theorem crontab_content_lines (m : jobmap) :
  crontab_content m =
  String.concat "" (map (fun l => l ++ Main.newline)%string
    (crontab_header :: map crontab_line (filter Enabled (map snd m)))).
Proof.
  unfold crontab_content, crontab_lines. rewrite fold_append_concat. reflexivity.
Qed.
